(** * The wired.com article scraper (src/main.py)

    A shallow embedding of [main] and of the two request handlers it
    registers, together with the properties of the crawl plan (listing
    pages, seed URLs, request budget) and of the handlers' effects
    (summarizer calls, pushed records, charged events). *)

From Stdlib Require Import Ascii.
From stdpp Require Import base numbers list list_numbers strings pretty gmap.

Local Open Scope Z_scope.

(** ** Python values used by [main] *)

(** The exceptions that can leave the modelled code: the two raised by
    [int / int], and whatever the OpenAI client raises (kept by name). *)
Inductive exception : Type :=
  | ZeroDivisionError
  | OverflowError
  | ClientError (name : string).

(** A finite binary64 value [fmant * 2 ^ fexp]. *)
Record float : Type := Float { fmant : Z; fexp : Z }.

Module Py.

(** Round-half-even of the non-negative rational [n / d], [0 < d]. *)
Definition rne (n d : Z) : Z :=
  let q := n / d in
  let r := n mod d in
  if 2 * r <? d then q
  else if d <? 2 * r then q + 1
  else if Z.even q then q else q + 1.

(** [floor (log2 (n / d))] for positive [n] and [d]. *)
Definition quot_log2 (n d : Z) : Z :=
  let l := Z.log2 n - Z.log2 d in
  let below := if 0 <=? l then n <? d * 2 ^ l else n * 2 ^ (- l) <? d in
  if below then l - 1 else l.

(** [a / b] on two ints: the quotient correctly rounded to binary64
    (53-bit significand, exponents down to the subnormal [2 ^ -1074]),
    [ZeroDivisionError] for a zero divisor and [OverflowError] when the
    rounded quotient does not fit a float. *)
Definition truediv (a b : Z) : exception + float :=
  if b =? 0 then inl ZeroDivisionError
  else if a =? 0 then inr (Float 0 0)
  else
    let n := Z.abs a in
    let d := Z.abs b in
    let e := Z.max (quot_log2 n d - 52) (- 1074) in
    let m := if 0 <=? e then rne n (d * 2 ^ e) else rne (n * 2 ^ (- e)) d in
    if (972 <=? e) || ((e =? 971) && (m =? 2 ^ 53))
    then inl OverflowError
    else inr (Float (Z.sgn a * Z.sgn b * m) e).

(** [math.ceil] on a finite float: the least int not below it. *)
Definition ceil (x : float) : Z :=
  if 0 <=? fexp x then fmant x * 2 ^ fexp x
  else - ((- fmant x) / 2 ^ (- fexp x)).

(** [range(lo, hi)]. *)
Definition range (lo hi : Z) : list Z := seqZ lo (hi - lo).

(** [str(i)] of an int, as an f-string formats it. *)
Definition str (i : Z) : string := pretty i.

End Py.

(** The exact ceiling of [a / b] on the integers, for comparison. *)
Definition cdiv (a b : Z) : Z := - ((- a) / b).

(** ** The crawl plan computed by [main] (lines 44-57) *)

Definition ARTICLES_PER_PAGE : Z := 24.

Definition base_url : string := "https://www.wired.com/tag/programming".

(** [actor_input = await Actor.get_input() or {}] followed by
    [actor_input.get("maxArticles", ARTICLES_PER_PAGE)]; the input is a
    dict of integer settings or [None]. *)
Definition get_max_articles (actor_input : option (gmap string Z)) : Z :=
  default ARTICLES_PER_PAGE (default ∅ actor_input !! "maxArticles").

(** [ceil(max_articles / ARTICLES_PER_PAGE)], the page size kept as an
    argument. *)
Definition total_pages (max_articles per_page : Z) : exception + Z :=
  match Py.truediv max_articles per_page with
  | inl e => inl e
  | inr x => inr (Py.ceil x)
  end.

(** The element expression of the list comprehension of lines 52-55:
    [base_url if page == 1 else f"{base_url}/?page={page}"]. *)
Definition page_url (base : string) (page : Z) : string :=
  if page =? 1 then base else base +:+ "/?page=" +:+ Py.str page.

(** The list comprehension itself, over [range(1, total_pages + 1)]. *)
Definition start_urls (base : string) (pages : Z) : list string :=
  page_url base <$> Py.range 1 (pages + 1).

(** What [main] holds when it reaches [crawler.run(start_urls)]. *)
Record Plan : Type := MkPlan {
  plan_total_pages : Z;
  plan_start_urls : list string;
  max_requests_per_crawl : Z
}.

(** Lines 47-57 with the base URL and the page size as arguments. *)
Definition plan (base : string) (max_articles per_page : Z) : exception + Plan :=
  match total_pages max_articles per_page with
  | inl e => inl e
  | inr pages =>
      inr (MkPlan pages (start_urls base pages) (max_articles + pages))
  end.

(** Lines 44-57 as [main] runs them. *)
Definition main_plan (actor_input : option (gmap string Z)) : exception + Plan :=
  plan base_url (get_max_articles actor_input) ARTICLES_PER_PAGE.


(** ** The world the handlers act on *)

(** A [bs4] element, seen through [get_text(strip=True)]. An element is
    always truthy, so [x if el else None] tests presence only. *)
Record Tag : Type := MkTag { get_text_strip : string }.

(** The crawling context of one fetched page: [context.request.url] and
    [context.soup.select_one(selector)]. *)
Record Context : Type := MkContext {
  request_url : string;
  soup_select_one : string -> option Tag
}.

(** The response object of [client.responses.create]; it is truthy. *)
Record Response : Type := MkResponse { output_text : string }.

(** The OpenAI client closed over by the handlers: a call returns a
    response or raises. *)
Record Client : Type := MkClient {
  responses_create : string -> string -> exception + Response
}.

(** The dict pushed to the dataset. *)
Record Data : Type := MkData {
  title : option string;
  content : option string;
  url : string;
  summary : option string
}.

(** One [context.enqueue_links(include=[Glob(...), ...], label=...)]. *)
Record EnqueueLinks : Type := MkEnqueueLinks {
  include : list string;
  label : string
}.

(** Everything the handlers do to the outside, in call order per kind:
    log lines, link-enqueue requests, summarizer calls (model, input),
    pushed records and charged events. *)
Record World : Type := MkWorld {
  logs : list string;
  enqueue_calls : list EnqueueLinks;
  llm_calls : list (string * string);
  dataset : list Data;
  charges : list string
}.

Definition initial : World := MkWorld [] [] [] [] [].

(** ** Effects: state passing with exceptions *)

Inductive outcome (A : Type) : Type :=
  | Return (a : A)
  | Raise (e : exception).
Arguments Return {A} a.
Arguments Raise {A} e.

Definition Eff (A : Type) : Type := World -> outcome A * World.

Global Instance Eff_ret : MRet Eff := λ A a w, (Return a, w).

(** Sequencing: an exception skips the rest and keeps the effects done. *)
Global Instance Eff_bind : MBind Eff := λ A B f m w,
  match m w with
  | (Return a, w') => f a w'
  | (Raise e, w') => (Raise e, w')
  end.

(** Logging, [enqueue_links], [push_data] and [Actor.charge] are calls
    into the SDK: each is recorded and taken to return normally. *)
Definition log_info (msg : string) : Eff unit := λ w,
  (Return (),
   MkWorld (logs w ++ [msg]) (enqueue_calls w) (llm_calls w) (dataset w) (charges w)).

Definition enqueue_links (globs : list string) (lbl : string) : Eff unit := λ w,
  (Return (),
   MkWorld (logs w) (enqueue_calls w ++ [MkEnqueueLinks globs lbl]) (llm_calls w)
     (dataset w) (charges w)).

(** [client.responses.create(model=..., input=...)]: the call is made,
    then it returns or raises. *)
Definition create (client : Client) (model input : string) : Eff Response := λ w,
  let w' := MkWorld (logs w) (enqueue_calls w) (llm_calls w ++ [(model, input)])
              (dataset w) (charges w) in
  match responses_create client model input with
  | inl e => (Raise e, w')
  | inr r => (Return r, w')
  end.

Definition push_data (data : Data) : Eff unit := λ w,
  (Return (),
   MkWorld (logs w) (enqueue_calls w) (llm_calls w) (dataset w ++ [data]) (charges w)).

Definition charge (event_name : string) : Eff unit := λ w,
  (Return (),
   MkWorld (logs w) (enqueue_calls w) (llm_calls w) (dataset w) (charges w ++ [event_name])).

(** ** The two request handlers (lines 60-109) *)

Definition newline : string := String "010"%char "".
Definition dquote : string := String "034"%char "".

(** Truthiness of an [Optional[str]]: [None] and [""] are falsy. *)
Definition truthy (s : option string) : bool :=
  match s with
  | Some s => negb (String.eqb s "")
  | None => false
  end.

(** How an f-string renders an [Optional[str]]. *)
Definition format (s : option string) : string :=
  match s with
  | Some s => s
  | None => "None"
  end.

(** The handler registered with [router.default_handler]: listing pages. *)
Module DefaultHandler.

Definition article_glob : string := "https://www.wired.com/story/**".

Definition request_handler (context : Context) : Eff unit :=
  let url := request_url context in
  log_info ("Scraping " +:+ url +:+ "...");;
  enqueue_links [article_glob] "ARTICLE".

End DefaultHandler.

(** The handler registered with [router.handler(label="ARTICLE")]. *)
Module ArticleHandler.

Definition title_selector : string :=
  "h1[data-testid=" +:+ dquote +:+ "ContentHeaderHed" +:+ dquote +:+ "]".

Definition content_selector : string :=
  "div[data-testid=" +:+ dquote +:+ "ArticlePageChunks" +:+ dquote +:+ "]".

Definition model : string := "gpt-4.1-mini".

Definition event_name : string := "article_summary".

(** [title_el.get_text(strip=True) if title_el else None]. *)
Definition title_of (context : Context) : option string :=
  match soup_select_one context title_selector with
  | Some title_el => Some (get_text_strip title_el)
  | None => None
  end.

(** [content_el.get_text(strip=True) if content_el else None]. *)
Definition content_of (context : Context) : option string :=
  match soup_select_one context content_selector with
  | Some content_el => Some (get_text_strip content_el)
  | None => None
  end.

Definition prompt_prefix : string :=
  newline
  +:+ "Your task is to summarize the content of the article in 3 sentences."
  +:+ newline +:+ "The original content of the article is:" +:+ newline.

Definition prompt_suffix : string :=
  newline +:+ newline
  +:+ "Keep the answer simple and concise. Focus on the main points of the article, and avoid unnecessary details."
  +:+ newline.

(** The f-string of lines 83-89. *)
Definition prompt_of (content : option string) : string :=
  prompt_prefix +:+ format content +:+ prompt_suffix.

Definition request_handler (client : Client) (context : Context) : Eff unit :=
  log_info ("Processing article " +:+ request_url context +:+ " ...");;
  let title := title_of context in
  let content := content_of context in
  let prompt := prompt_of content in
  summary ← (if truthy content
             then response ← create client model prompt; mret (Some response)
             else mret None);
  let data :=
    MkData title content (request_url context)
      (match summary with
       | Some response => Some (output_text response)
       | None => None
       end) in
  push_data data;;
  if truthy content then charge event_name else mret ().

End ArticleHandler.

(** ** Sample pages and clients *)

Definition page (u : string) (title_el content_el : option string) : Context :=
  MkContext u (λ selector,
    if String.eqb selector ArticleHandler.title_selector then MkTag <$> title_el
    else if String.eqb selector ArticleHandler.content_selector then MkTag <$> content_el
    else None).

Definition story_page : Context :=
  page "https://www.wired.com/story/a" (Some "Headline") (Some "Body text").

(** The content container is there but holds no text. *)
Definition blank_page : Context :=
  page "https://www.wired.com/story/b" (Some "Headline") (Some "").

(** Neither selector matches. *)
Definition bare_page : Context :=
  page "https://www.wired.com/story/c" None None.

Definition answering_client : Client :=
  MkClient (λ _ _, inr (MkResponse "Three sentences.")).

Definition failing_client : Client :=
  MkClient (λ _ _, inl (ClientError "APIConnectionError")).

(** A summarizer call that came back. *)
Definition returned {A : Type} (r : exception + A) : bool :=
  match r with
  | inl _ => false
  | inr _ => true
  end.

(** The records pushed between two worlds. *)
Definition pushed (w w' : World) : list Data :=
  drop (length (dataset w)) (dataset w').

(** A record carries a summary only together with non-empty content. *)
Definition summary_has_content (d : Data) : Prop :=
  summary d ≠ None -> ∃ c, content d = Some c ∧ c ≠ "".

(** ** Readings of the specification to be compared with the code *)

(** The plan the specification describes for [t] items and pages of [p]:
    [ceil(t / p)] pages, as many seed URLs, the bare base URL first, page
    [i > 1] as [base/?page=i], no URL twice. *)
Definition plan_as_specified (base : string) (t p : Z) : Prop :=
  ∃ pl, plan base t p = inr pl
    ∧ plan_total_pages pl = cdiv t p
    ∧ length (plan_start_urls pl) = Z.to_nat (cdiv t p)
    ∧ plan_start_urls pl !! 0%nat = Some base
    ∧ (∀ i, 1 < i <= cdiv t p ->
         plan_start_urls pl !! Z.to_nat (i - 1)
         = Some (base +:+ "/?page=" +:+ Py.str i))
    ∧ NoDup (plan_start_urls pl).

(** The degenerate plan the specification describes for [t <= 0]: no
    error, zero pages, no seed URL. *)
Definition degenerate_plan_as_specified (base : string) (t p : Z) : Prop :=
  ∃ pl, plan base t p = inr pl
    ∧ plan_total_pages pl = 0
    ∧ plan_start_urls pl = [].

(** Planning rejects a non-positive [maxArticles] with an error. *)
Definition rejects_nonpositive (actor_input : option (gmap string Z)) : Prop :=
  get_max_articles actor_input <= 0 -> ∃ e, main_plan actor_input = inl e.


(** Billing gated on the mere presence of content: one charge when the
    content is not [None], none when it is. *)
Definition bills_on_content_presence
    (client : Client) (context : Context) (w : World) : Prop :=
  let w' := (ArticleHandler.request_handler client context w).2 in
  match ArticleHandler.content_of context with
  | Some _ => charges w' = charges w ++ [ArticleHandler.event_name]
  | None => charges w' = charges w
  end.

(** A failed summarizer call still leaves a record with a null summary
    and one charge. *)
Definition survives_summarizer_failure
    (client : Client) (context : Context) (w : World) : Prop :=
  ∀ c e,
    ArticleHandler.content_of context = Some c ->
    responses_create client ArticleHandler.model
      (ArticleHandler.prompt_of (Some c)) = inl e ->
    let w' := (ArticleHandler.request_handler client context w).2 in
    dataset w' = dataset w
                 ++ [MkData (ArticleHandler.title_of context) (Some c)
                       (request_url context) None]
    ∧ charges w' = charges w ++ [ArticleHandler.event_name].

(** Exactly one record for every article page, the summarizer called
    exactly when the content is not [None]. *)
Definition always_emits_one_record
    (client : Client) (context : Context) (w : World) : Prop :=
  let w' := (ArticleHandler.request_handler client context w).2 in
  (∃ s, dataset w' = dataset w
                     ++ [MkData (ArticleHandler.title_of context)
                           (ArticleHandler.content_of context)
                           (request_url context) s]
        ∧ (ArticleHandler.content_of context = None -> s = None))
  ∧ match ArticleHandler.content_of context with
    | Some c =>
        llm_calls w' = llm_calls w
                       ++ [(ArticleHandler.model,
                            ArticleHandler.prompt_prefix +:+ c
                            +:+ ArticleHandler.prompt_suffix)]
    | None => llm_calls w' = llm_calls w
    end.

(** ** Worlds across handler invocations *)

Definition has_summary (d : Data) : bool :=
  match summary d with
  | Some _ => true
  | None => false
  end.

(** One charge of ["article_summary"] per pushed record that carries a
    summary, and no charge without a summarizer call. *)
Definition billing_consistent (w : World) : Prop :=
  charges w
  = replicate (length (filter (λ d, has_summary d = true) (dataset w)))
      ArticleHandler.event_name
  ∧ (length (charges w) <= length (llm_calls w))%nat.

(** One complete invocation of either handler, on any page and with any
    behaviour of the client. *)
Inductive handled (w : World) : World -> Prop :=
  | handled_listing (context : Context) :
      handled w (DefaultHandler.request_handler context w).2
  | handled_article (client : Client) (context : Context) :
      handled w (ArticleHandler.request_handler client context w).2.

(** A complete invocation of one of the two handlers. *)
Inductive invocation : Type :=
  | Listing (context : Context)
  | Article (client : Client) (context : Context).

(** The world after an invocation, whether it returned or raised. *)
Definition invoke (w : World) (i : invocation) : World :=
  match i with
  | Listing context => (DefaultHandler.request_handler context w).2
  | Article client context => (ArticleHandler.request_handler client context w).2
  end.

(** A sequence of invocations, one after the other. *)
Definition invoke_all (invs : list invocation) (w : World) : World :=
  foldl invoke w invs.

(** The link-enqueue request an invocation is expected to make: one for
    a listing page, none for an article page. *)
Definition enqueued_by (i : invocation) : list EnqueueLinks :=
  match i with
  | Listing _ => [MkEnqueueLinks [DefaultHandler.article_glob] "ARTICLE"]
  | Article _ _ => []
  end.

(** The summarizer call an invocation is expected to make: one, around
    the page's content, for an article page whose content is there and
    not empty; none otherwise. *)
Definition summarizer_calls_by (i : invocation) : list (string * string) :=
  match i with
  | Listing _ => []
  | Article _ context =>
      match ArticleHandler.content_of context with
      | Some c =>
          if String.eqb c "" then []
          else [(ArticleHandler.model,
                 ArticleHandler.prompt_prefix +:+ c +:+ ArticleHandler.prompt_suffix)]
      | None => []
      end
  end.

(** The literal part of the article glob, before its wildcard. *)
Definition article_prefix : string := "https://www.wired.com/story/".

(** ** Arithmetic of the rounded quotient *)

Section rounding.

Lemma rne_nonneg n d : 0 <= n -> 0 < d -> 0 <= Py.rne n d.
Proof.
  intros Hn Hd. unfold Py.rne.
  assert (0 <= n / d) by (apply Z.div_pos; lia).
  repeat case_match; lia.
Qed.

(** The rounded quotient is within half a unit of the exact one. *)
Lemma rne_error n d :
  0 < d -> - d <= 2 * (Py.rne n d * d - n) <= d.
Proof.
  intros Hd. unfold Py.rne.
  pose proof (Z.div_mod n d ltac:(lia)) as Hdm.
  pose proof (Z.mod_pos_bound n d Hd) as Hr.
  repeat case_match; nia.
Qed.

Lemma rne_exact q d : 0 < d -> Py.rne (q * d) d = q.
Proof.
  intros Hd. unfold Py.rne.
  rewrite Z.div_mul, Z.mod_mul by lia.
  case_match; [done | lia].
Qed.

(** With [k] fractional bits and a divisor below [2 ^ (k + 1)], rounding
    [n / d] never crosses an integer: floor and ceiling are kept. *)
Lemma rne_scaled_floor_ceil n d k :
  0 <= n -> 0 < d -> 0 <= k -> d < 2 ^ (k + 1) ->
  Py.rne (n * 2 ^ k) d / 2 ^ k = n / d ∧
  cdiv (Py.rne (n * 2 ^ k) d) (2 ^ k) = cdiv n d.
Proof.
  intros Hn Hd Hk Hlt.
  rewrite Z.pow_add_r in Hlt by lia. change (2 ^ 1) with 2 in Hlt.
  assert (0 < 2 ^ k) as HP by (apply Z.pow_pos_nonneg; lia).
  set (P := 2 ^ k) in *.
  pose proof (Z.div_mod n d ltac:(lia)) as Hdm.
  pose proof (Z.mod_pos_bound n d Hd) as Hr.
  set (q := n / d) in *. set (r := n mod d) in *.
  destruct (decide (r = 0)) as [Hr0 | Hr0].
  - assert (n * P = (q * P) * d) as -> by nia.
    rewrite rne_exact by done. unfold cdiv.
    assert (n = q * d) as Hnq by lia.
    rewrite Z.div_mul by lia.
    replace (- (q * P)) with ((- q) * P) by lia.
    rewrite Z.div_mul by lia.
    split; [done |].
    rewrite Hnq. replace (- (q * d)) with ((- q) * d) by lia.
    rewrite Z.div_mul by lia. done.
  - pose proof (rne_error (n * P) d Hd) as Herr.
    set (m := Py.rne (n * P) d) in *.
    assert (q * P < m < (q + 1) * P) as [Hlo Hhi] by nia.
    assert (m / P = q) as Hfl.
    { symmetry. apply (Z.div_unique m P q (m - q * P)); lia. }
    split; [done |]. unfold cdiv.
    assert (- m / P = - (q + 1)) as ->.
    { symmetry. apply (Z.div_unique (- m) P (- (q + 1)) ((q + 1) * P - m)); lia. }
    assert (- n / d = - (q + 1)) as ->.
    { symmetry. apply (Z.div_unique (- n) d (- (q + 1)) (d - r)); lia. }
    done.
Qed.

(** [quot_log2] never overshoots the quotient. *)
Lemma quot_log2_lower n d :
  0 < n -> 0 < d ->
  (0 <= Py.quot_log2 n d -> d * 2 ^ Py.quot_log2 n d <= n) ∧
  (Py.quot_log2 n d < 0 -> d <= n * 2 ^ (- Py.quot_log2 n d)).
Proof.
  intros Hn Hd. unfold Py.quot_log2.
  pose proof (Z.log2_spec n Hn) as [Hn1 Hn2].
  pose proof (Z.log2_spec d Hd) as [Hd1 Hd2].
  pose proof (Z.log2_nonneg n) as Hln. pose proof (Z.log2_nonneg d) as Hld.
  set (ln := Z.log2 n) in *. set (ld := Z.log2 d) in *.
  rewrite <- Z.add_1_r in Hn2, Hd2.
  assert (0 <= ln - ld - 1 -> d * 2 ^ (ln - ld - 1) <= n) as Hge.
  { intros Hs.
    assert (2 ^ ln = 2 ^ (ld + 1) * 2 ^ (ln - ld - 1)) as Hpow.
    { rewrite <- Z.pow_add_r by lia. f_equal; lia. }
    assert (0 < 2 ^ (ln - ld - 1)) by (apply Z.pow_pos_nonneg; lia).
    nia. }
  assert (ln - ld - 1 < 0 -> d <= n * 2 ^ (- (ln - ld - 1))) as Hlt.
  { intros Hs.
    assert (2 ^ ln * 2 ^ (- (ln - ld - 1)) = 2 ^ (ld + 1)) as Hpow.
    { rewrite <- Z.pow_add_r by lia. f_equal; lia. }
    assert (0 < 2 ^ (- (ln - ld - 1))) by (apply Z.pow_pos_nonneg; lia).
    nia. }
  destruct (Z.leb_spec 0 (ln - ld)) as [Hl | Hl].
  - destruct (Z.ltb_spec n (d * 2 ^ (ln - ld))) as [Hb | Hb]; split; auto; lia.
  - destruct (Z.ltb_spec (n * 2 ^ (- (ln - ld))) d) as [Hb | Hb]; split; auto; lia.
Qed.

(** ... and never undershoots it by a factor of two: together with
    [quot_log2_lower], [2 ^ fl <= n / d < 2 ^ (fl + 1)]. *)
Lemma quot_log2_below_next n d :
  0 < n -> 0 < d ->
  (0 <= Py.quot_log2 n d + 1 -> n < d * 2 ^ (Py.quot_log2 n d + 1)) ∧
  (Py.quot_log2 n d + 1 < 0 -> n * 2 ^ (- (Py.quot_log2 n d + 1)) < d).
Proof.
  intros Hn Hd. unfold Py.quot_log2.
  pose proof (Z.log2_spec n Hn) as [Hn1 Hn2].
  pose proof (Z.log2_spec d Hd) as [Hd1 Hd2].
  pose proof (Z.log2_nonneg n) as Hln. pose proof (Z.log2_nonneg d) as Hld.
  set (ln := Z.log2 n) in *. set (ld := Z.log2 d) in *.
  rewrite <- Z.add_1_r in Hn2, Hd2.
  assert (0 <= ln - ld + 1 -> n < d * 2 ^ (ln - ld + 1)) as Hge.
  { intros Hs.
    assert (2 ^ (ln + 1) = 2 ^ ld * 2 ^ (ln - ld + 1)) as Hpow.
    { rewrite <- Z.pow_add_r by lia. f_equal; lia. }
    assert (0 < 2 ^ (ln - ld + 1)) by (apply Z.pow_pos_nonneg; lia).
    nia. }
  assert (ln - ld + 1 < 0 -> n * 2 ^ (- (ln - ld + 1)) < d) as Hlt.
  { intros Hs.
    assert (2 ^ (ln + 1) * 2 ^ (- (ln - ld + 1)) = 2 ^ ld) as Hpow.
    { rewrite <- Z.pow_add_r by lia. f_equal; lia. }
    assert (0 < 2 ^ (- (ln - ld + 1))) by (apply Z.pow_pos_nonneg; lia).
    nia. }
  destruct (Z.leb_spec 0 (ln - ld)) as [Hl | Hl].
  - destruct (Z.ltb_spec n (d * 2 ^ (ln - ld))) as [Hb | Hb]; [| by split].
    replace (ln - ld - 1 + 1) with (ln - ld) by lia. split; [done | lia].
  - destruct (Z.ltb_spec (n * 2 ^ (- (ln - ld))) d) as [Hb | Hb]; [| by split].
    replace (ln - ld - 1 + 1) with (ln - ld) by lia. split; [lia | done].
Qed.

Lemma quot_log2_upper n d :
  0 < n -> 0 < d -> Py.quot_log2 n d <= Z.log2 n.
Proof.
  intros Hn Hd. unfold Py.quot_log2.
  pose proof (Z.log2_nonneg d). case_match; lia.
Qed.

End rounding.

(** ** The page count against the exact ceiling *)

Section page_count.

(** The exponent chosen by [Py.truediv] for a dividend below [2 ^ 53]
    leaves [k >= 0] fractional bits, enough for the divisor. *)
Lemma truediv_exponent n d :
  0 < n < 2 ^ 53 -> 0 < d < 2 ^ 1075 ->
  let e := Z.max (Py.quot_log2 n d - 52) (- 1074) in
  e <= 0 ∧ d < 2 ^ (- e + 1).
Proof.
  intros [Hn Hn53] [Hd Hd1075] e.
  pose proof (quot_log2_upper n d Hn Hd) as Hup.
  pose proof (proj1 (Z.log2_lt_pow2 n 53 Hn) Hn53) as Hlog.
  pose proof (quot_log2_lower n d Hn Hd) as [Hge Hlt].
  set (fl := Py.quot_log2 n d) in *.
  assert (e = fl - 52 ∧ - 1074 <= fl - 52 ∨ e = - 1074) as [[He Hnorm] | He]
    by (unfold e; lia).
  - split; [lia |]. rewrite He.
    replace (- (fl - 52) + 1) with (53 - fl) by lia.
    destruct (Z.leb_spec 0 fl) as [Hfl | Hfl].
    + specialize (Hge Hfl).
      assert (2 ^ 53 = 2 ^ (53 - fl) * 2 ^ fl) as Hpow.
      { rewrite <- Z.pow_add_r by lia. f_equal; lia. }
      assert (0 < 2 ^ fl) by (apply Z.pow_pos_nonneg; lia).
      assert (0 < 2 ^ (53 - fl)) by (apply Z.pow_pos_nonneg; lia).
      nia.
    + specialize (Hlt Hfl).
      assert (2 ^ (53 - fl) = 2 ^ 53 * 2 ^ (- fl)) as ->.
      { rewrite <- Z.pow_add_r by lia. f_equal; lia. }
      assert (0 < 2 ^ (- fl)) by (apply Z.pow_pos_nonneg; lia).
      nia.
  - split; [lia |]. rewrite He. exact Hd1075.
Qed.

(** The significand computed by [Py.truediv], whichever branch ran. *)
Lemma truediv_significand n d e :
  e <= 0 ->
  (if 0 <=? e then Py.rne n (d * 2 ^ e) else Py.rne (n * 2 ^ (- e)) d)
  = Py.rne (n * 2 ^ (- e)) d.
Proof.
  intros He. destruct (Z.leb_spec 0 e) as [H0 | H0]; [| reflexivity].
  assert (e = 0) as -> by lia. simpl (- 0). rewrite Z.pow_0_r.
  by rewrite !Z.mul_1_r.
Qed.

Lemma ceil_fractional m e :
  e <= 0 -> Py.ceil (Float m e) = cdiv m (2 ^ (- e)).
Proof.
  intros He. unfold Py.ceil, cdiv; simpl.
  destruct (Z.leb_spec 0 e) as [H0 | H0]; [| reflexivity].
  assert (e = 0) as -> by lia. simpl (- 0). rewrite Z.pow_0_r.
  rewrite Z.div_1_r. lia.
Qed.

(** Below [2 ^ 53] items the float quotient rounds to the same integer
    ceiling as the exact one, for both signs of the item count. *)
Lemma total_pages_exact a b :
  - 2 ^ 53 < a < 2 ^ 53 -> 0 < b < 2 ^ 1075 ->
  total_pages a b = inr (cdiv a b).
Proof.
  intros Ha Hb. unfold total_pages, Py.truediv.
  destruct (Z.eqb_spec b 0) as [? | _]; [lia |].
  destruct (Z.eqb_spec a 0) as [-> | Hne].
  { unfold cdiv. simpl. by rewrite Z.div_0_l by lia. }
  rewrite (Z.abs_eq b) by lia.
  assert (0 < Z.abs a < 2 ^ 53) as Hn by lia.
  pose proof (truediv_exponent (Z.abs a) b Hn Hb) as [He Hlt]. simpl in He, Hlt.
  set (e := Z.max (Py.quot_log2 (Z.abs a) b - 52) (- 1074)) in *.
  rewrite truediv_significand by done.
  assert (- 1074 <= e) as Hlow by (unfold e; lia).
  destruct (Z.leb_spec 972 e) as [? | _]; [lia |].
  destruct (Z.eqb_spec e 971) as [? | _]; [lia |]. cbn [orb andb].
  rewrite ceil_fractional by done.
  pose proof (rne_scaled_floor_ceil (Z.abs a) b (- e) ltac:(lia) ltac:(lia)
                ltac:(lia) Hlt) as [Hfloor Hceil].
  set (m := Py.rne (Z.abs a * 2 ^ (- e)) b) in *.
  rewrite (Z.sgn_pos b) by lia. f_equal.
  destruct (Z.lt_total a 0) as [Hneg | [? | Hpos]]; [| lia |].
  - rewrite (Z.sgn_neg a) by done.
    replace (-1 * 1 * m) with (- m) by lia.
    unfold cdiv. rewrite Z.opp_involutive, Hfloor.
    by rewrite (Z.abs_neq a) by lia.
  - rewrite (Z.sgn_pos a) by done.
    replace (1 * 1 * m) with m by lia.
    rewrite Hceil. by rewrite (Z.abs_eq a) by lia.
Qed.

(** Whenever the division succeeds on a non-positive item count, the
    page count is non-positive. *)
Lemma total_pages_nonpos a b pages :
  a <= 0 -> 0 < b -> total_pages a b = inr pages -> pages <= 0.
Proof.
  intros Ha Hb. unfold total_pages, Py.truediv.
  destruct (Z.eqb_spec b 0) as [? | _]; [lia |].
  destruct (Z.eqb_spec a 0) as [-> | Hne].
  { intros [= <-]. done. }
  set (e := Z.max _ _).
  set (m := if 0 <=? e then _ else _).
  assert (0 <= m) as Hm.
  { unfold m. case_match.
    - apply rne_nonneg; [lia |].
      apply Z.mul_pos_pos; [lia |]. apply Z.pow_pos_nonneg; lia.
    - apply rne_nonneg; [| lia].
      apply Z.mul_nonneg_nonneg; [lia |]. apply Z.pow_nonneg. lia. }
  destruct (_ || _); [done |]. intros [= <-].
  rewrite (Z.sgn_neg a), (Z.sgn_pos b) by lia.
  replace (-1 * 1 * m) with (- m) by lia.
  unfold Py.ceil; simpl. destruct (Z.leb_spec 0 e) as [H0 | H0].
  - assert (0 <= 2 ^ e) by (apply Z.pow_nonneg; lia). nia.
  - rewrite Z.opp_involutive.
    assert (0 <= m / 2 ^ (- e)); [| lia].
    apply Z.div_pos; [done |]. apply Z.pow_pos_nonneg; lia.
Qed.

End page_count.

(** ** The seed URLs *)

Section seed_urls.

Variable base : string.

Lemma app_empty_r (s : string) : s +:+ "" = s.
Proof.
  induction s as [| c s IH]; [done |].
  change (String c (s +:+ "") = String c s). by rewrite IH.
Qed.

Lemma start_urls_fmap pages :
  start_urls base pages = page_url base <$> seqZ 1 pages.
Proof. unfold start_urls, Py.range. do 2 f_equal. lia. Qed.

Lemma page_url_inj i j : page_url base i = page_url base j -> i = j.
Proof.
  unfold page_url.
  destruct (Z.eqb_spec i 1) as [-> | Hi], (Z.eqb_spec j 1) as [-> | Hj];
    [done | | |].
  - rewrite <- (app_empty_r base) at 1. intros H%(inj _). discriminate H.
  - rewrite <- (app_empty_r base) at 2. intros H%(inj _). discriminate H.
  - intros H%(inj _). cbn in H.
    apply (inj (String.app "/?page=")) in H. by apply (inj pretty) in H.
Qed.

Lemma length_start_urls pages :
  length (start_urls base pages) = Z.to_nat pages.
Proof. by rewrite start_urls_fmap, length_fmap, length_seqZ. Qed.

Lemma start_urls_nil pages : pages <= 0 -> start_urls base pages = [].
Proof. intros H. by rewrite start_urls_fmap, seqZ_nil. Qed.

(** Page [i] (counted from 1) sits at index [i - 1]. *)
Lemma start_urls_lookup pages i :
  1 <= i <= pages ->
  start_urls base pages !! Z.to_nat (i - 1) = Some (page_url base i).
Proof.
  intros Hi. rewrite start_urls_fmap, list_lookup_fmap.
  rewrite lookup_seqZ_lt by lia. simpl. f_equal. f_equal. lia.
Qed.

Lemma NoDup_start_urls pages : NoDup (start_urls base pages).
Proof.
  rewrite start_urls_fmap. apply NoDup_fmap_2_strong; [| apply NoDup_seqZ].
  intros i j _ _. apply page_url_inj.
Qed.

End seed_urls.

(** ** The handlers, run *)

Section handlers.

Variable client : Client.
Variable context : Context.
Variable w : World.

(** The three ways through the article handler: no summarizer call,
    a call that raises, a call that returns. *)
Lemma article_handler_run :
  ArticleHandler.request_handler client context w =
  let logged :=
    logs w ++ ["Processing article " +:+ request_url context +:+ " ..."] in
  let content := ArticleHandler.content_of context in
  let call := (ArticleHandler.model, ArticleHandler.prompt_of content) in
  let record := MkData (ArticleHandler.title_of context) content (request_url context) in
  if truthy content then
    match responses_create client call.1 call.2 with
    | inl e =>
        (Raise e,
         MkWorld logged (enqueue_calls w) (llm_calls w ++ [call])
           (dataset w) (charges w))
    | inr r =>
        (Return (),
         MkWorld logged (enqueue_calls w) (llm_calls w ++ [call])
           (dataset w ++ [record (Some (output_text r))])
           (charges w ++ [ArticleHandler.event_name]))
    end
  else
    (Return (),
     MkWorld logged (enqueue_calls w) (llm_calls w)
       (dataset w ++ [record None]) (charges w)).
Proof.
  unfold ArticleHandler.request_handler, mbind, Eff_bind, mret, Eff_ret.
  unfold log_info, create, push_data, charge; simpl.
  destruct (truthy (ArticleHandler.content_of context)); [| done].
  by destruct (responses_create client _ _).
Qed.

Lemma default_handler_run :
  DefaultHandler.request_handler context w =
  (Return (),
   MkWorld (logs w ++ ["Scraping " +:+ request_url context +:+ "..."])
     (enqueue_calls w ++ [MkEnqueueLinks [DefaultHandler.article_glob] "ARTICLE"])
     (llm_calls w) (dataset w) (charges w)).
Proof. reflexivity. Qed.

Lemma truthy_Some c : truthy (Some c) = true ↔ c ≠ "".
Proof.
  simpl. destruct (String.eqb_spec c ""); simpl; split; congruence.
Qed.

Lemma pushed_app (l : list Data) w' :
  dataset w' = dataset w ++ l -> pushed w w' = l.
Proof. intros H. unfold pushed. by rewrite H, drop_app_length. Qed.

End handlers.

(** ** The crawl plan *)

Section crawl_plan.

Variable base : string.

Lemma plan_pages t p pages :
  total_pages t p = inr pages ->
  plan base t p = inr (MkPlan pages (start_urls base pages) (t + pages)).
Proof. intros H. unfold plan. by rewrite H. Qed.

Lemma plan_inv t p pl :
  plan base t p = inr pl ->
  total_pages t p = inr (plan_total_pages pl)
  ∧ plan_start_urls pl = start_urls base (plan_total_pages pl)
  ∧ max_requests_per_crawl pl = t + plan_total_pages pl.
Proof.
  unfold plan. destruct (total_pages t p) as [e | pages]; [done |].
  by intros [= <-].
Qed.

Lemma cdiv_pos t p : 0 < t -> 0 < p -> 1 <= cdiv t p.
Proof.
  intros Ht Hp. unfold cdiv.
  assert (- t / p < 0); [| lia].
  apply Z.div_lt_upper_bound; lia.
Qed.

Lemma cdiv_nonpos t p : t <= 0 -> 0 < p -> cdiv t p <= 0.
Proof.
  intros Ht Hp. unfold cdiv.
  assert (0 <= - t / p); [| lia].
  apply Z.div_pos; lia.
Qed.

Lemma cdiv_zero t p : t <= 0 -> 0 < p -> cdiv t p = 0 ↔ - p < t.
Proof.
  intros Ht Hp. unfold cdiv.
  pose proof (Z.div_small_iff (- t) p ltac:(lia)) as Hsmall. lia.
Qed.


Lemma plan_no_zero_division t p :
  0 < p -> plan base t p ≠ inl ZeroDivisionError.
Proof.
  intros Hp. unfold plan, total_pages, Py.truediv.
  destruct (Z.eqb_spec p 0) as [? | _]; [lia |].
  destruct (t =? 0); [done |].
  by destruct (_ || _).
Qed.

(** A plan for no items, if there is one, seeds nothing. *)
Lemma plan_nonpos_empty t p pl :
  t <= 0 -> 0 < p -> plan base t p = inr pl ->
  plan_total_pages pl <= 0 ∧ plan_start_urls pl = [].
Proof.
  intros Ht Hp (Htotal & Hurls & _)%plan_inv.
  pose proof (total_pages_nonpos t p _ Ht Hp Htotal) as Hle.
  split; [done |]. rewrite Hurls. by apply start_urls_nil.
Qed.

Lemma plan_nonpos_returns t p :
  - 2 ^ 53 < t <= 0 -> 0 < p < 2 ^ 1075 ->
  plan base t p = inr (MkPlan (cdiv t p) [] (t + cdiv t p)).
Proof.
  intros Ht Hp.
  pose proof (total_pages_exact t p ltac:(lia) Hp) as Hpages.
  rewrite (plan_pages _ _ _ Hpages).
  by rewrite start_urls_nil by (apply cdiv_nonpos; lia).
Qed.

End crawl_plan.

(** The rounding model on a few quotients: [1 / 3], a tie that goes to
    the even significand, the smallest subnormal and a zero divisor. *)
Example truediv_samples :
  Py.truediv 1 3 = inr (Float 6004799503160661 (-54))
  ∧ Py.truediv (2 ^ 53 + 1) 1 = inr (Float (2 ^ 52) 1)
  ∧ Py.truediv 1 (2 ^ 1074) = inr (Float 1 (-1074))
  ∧ Py.truediv 5 0 = inl ZeroDivisionError.
Proof. repeat split. Qed.

(** The four plans listed as testable in the specification. *)
Example plan_24 :
  plan base_url 24 24 = inr (MkPlan 1 [base_url] 25).
Proof. reflexivity. Qed.

Example plan_25 :
  plan base_url 25 24 = inr (MkPlan 2 [base_url; base_url +:+ "/?page=2"] 27).
Proof. reflexivity. Qed.

Example plan_48_49 :
  total_pages 48 ARTICLES_PER_PAGE = inr 2
  ∧ total_pages 49 ARTICLES_PER_PAGE = inr 3.
Proof. split; reflexivity. Qed.

(** C3 (amended): for every item count [0 < t < 2 ^ 53] and page size
    [0 < p < 2 ^ 1075] (the program runs with [p = 24]) the planner
    returns a plan with [ceil(t / p)] pages and exactly that many seed
    URLs; the first is the bare base URL, the one at 1-based position
    [i > 1] is the base URL followed by [/?page=] and [i], and no URL
    occurs twice. *)
Theorem plan_matches_specification (base : string) (t p : Z) :
  0 < t < 2 ^ 53 -> 0 < p < 2 ^ 1075 -> plan_as_specified base t p.
Proof.
  intros Ht Hp.
  pose proof (total_pages_exact t p ltac:(lia) Hp) as Hpages.
  pose proof (cdiv_pos t p ltac:(lia) ltac:(lia)) as Hpos.
  exists (MkPlan (cdiv t p) (start_urls base (cdiv t p)) (t + cdiv t p)).
  split; [by apply plan_pages |]. cbn [plan_total_pages plan_start_urls].
  split; [done |].
  split; [apply length_start_urls |].
  split.
  { change 0%nat with (Z.to_nat (1 - 1)). by rewrite start_urls_lookup by lia. }
  split; [| apply NoDup_start_urls].
  intros i Hi. rewrite start_urls_lookup by lia. unfold page_url.
  destruct (Z.eqb_spec i 1) as [? | _]; [lia | done].
Qed.

Lemma plan_matches_specification_witness :
  (0 < 50 < 2 ^ 53 ∧ 0 < 24 < 2 ^ 1075) ∧ plan_as_specified base_url 50 24.
Proof.
  assert (0 < 50 < 2 ^ 53) as Ht by (split; reflexivity).
  assert (0 < 24 < 2 ^ 1075) as Hp by (split; reflexivity).
  split; [split; [exact Ht | exact Hp] |].
  exact (plan_matches_specification base_url 50 24 Ht Hp).
Defined.

(** C3 (as stated, refuted): for [24 * 2 ^ 53 + 24] items the float
    quotient [2 ^ 53 + 1] rounds to [2 ^ 53], one page short of the exact
    ceiling, and for [2 ^ 1029] items the division raises
    [OverflowError]; both item counts are positive. *)
Lemma plan_beyond_float_precision :
  ¬ plan_as_specified base_url (24 * 2 ^ 53 + 24) 24
  ∧ ¬ plan_as_specified base_url (2 ^ 1029) 24.
Proof.
  split.
  - intros (pl & Hpl & Hpages & _).
    apply plan_inv in Hpl as (Htotal & _ & _).
    rewrite Hpages in Htotal.
    vm_compute in Htotal. discriminate Htotal.
  - intros (pl & Hpl & _).
    apply plan_inv in Hpl as (Htotal & _ & _).
    vm_compute in Htotal. discriminate Htotal.
Qed.

(** C6 (amended): for every item count [t <= 0] and page size [p > 0]
    the planner never divides by zero, and whenever it returns, the page
    count is at most 0 and the seed-URL sequence is empty; for
    [- 2 ^ 53 < t] and [p < 2 ^ 1075] it does return, with
    [ceil(t / p)] pages, which is 0 exactly when [- p < t]. *)
Theorem nonpositive_target_plans_no_page (base : string) (t p : Z) :
  t <= 0 -> 0 < p ->
  plan base t p ≠ inl ZeroDivisionError
  ∧ (∀ pl, plan base t p = inr pl ->
       plan_total_pages pl <= 0 ∧ plan_start_urls pl = [])
  ∧ (- 2 ^ 53 < t -> p < 2 ^ 1075 ->
     ∃ pl, plan base t p = inr pl
       ∧ plan_total_pages pl = cdiv t p
       ∧ (plan_total_pages pl = 0 ↔ - p < t)).
Proof.
  intros Ht Hp. split; [| split].
  - by apply plan_no_zero_division.
  - intros pl Hpl. by apply (plan_nonpos_empty base t p).
  - intros Hlow Hhigh. eexists.
    split; [apply plan_nonpos_returns; lia |]. cbn [plan_total_pages].
    split; [done |]. by apply cdiv_zero.
Qed.

Lemma nonpositive_target_plans_no_page_witness :
  (-5 <= 0 ∧ 0 < 24)
  ∧ ∃ pl, plan base_url (-5) 24 = inr pl
      ∧ plan_total_pages pl = 0 ∧ plan_start_urls pl = [].
Proof.
  assert (-5 <= 0) as Ht by discriminate.
  assert (0 < 24) as Hp by reflexivity.
  split; [split; [exact Ht | exact Hp] |].
  destruct (nonpositive_target_plans_no_page base_url (-5) 24 Ht Hp)
    as (_ & Hempty & Hret).
  destruct (Hret eq_refl eq_refl) as (pl & Hpl & _ & Hzero).
  exists pl. split; [exact Hpl |].
  split; [apply Hzero; reflexivity | apply (Hempty pl Hpl)].
Defined.

(** C6 (as stated, refuted): for [-24] items of 24 per page the page
    count is [-1], not 0, and for [- 2 ^ 1029] items the planner raises
    [OverflowError] instead of returning. *)
Lemma nonpositive_target_page_count :
  ¬ degenerate_plan_as_specified base_url (-24) 24
  ∧ ¬ degenerate_plan_as_specified base_url (- 2 ^ 1029) 24.
Proof.
  split.
  - intros (pl & Hpl & Hpages & _).
    apply plan_inv in Hpl as (Htotal & _ & _).
    rewrite Hpages in Htotal. vm_compute in Htotal. discriminate Htotal.
  - intros (pl & Hpl & _).
    apply plan_inv in Hpl as (Htotal & _ & _).
    vm_compute in Htotal. discriminate Htotal.
Qed.

(** C7 (amended): a configured [maxArticles <= 0] (above [- 2 ^ 53]) is
    not rejected: planning returns without any error, with no seed URL
    (a zero-page crawl) and a request budget of at most 0. *)
Theorem nonpositive_max_articles_accepted (actor_input : option (gmap string Z)) :
  - 2 ^ 53 < get_max_articles actor_input <= 0 ->
  ∃ pl, main_plan actor_input = inr pl
    ∧ plan_start_urls pl = []
    ∧ max_requests_per_crawl pl <= 0.
Proof.
  intros Ht. unfold main_plan.
  set (t := get_max_articles actor_input) in *.
  eexists. split; [apply plan_nonpos_returns; [done | split; reflexivity] |].
  cbn [plan_start_urls max_requests_per_crawl]. split; [done |].
  pose proof (cdiv_nonpos t ARTICLES_PER_PAGE ltac:(lia) eq_refl). lia.
Qed.

Lemma nonpositive_max_articles_accepted_witness :
  - 2 ^ 53 < get_max_articles (Some {[ "maxArticles" := -30 ]}) <= 0
  ∧ ∃ pl, main_plan (Some {[ "maxArticles" := -30 ]}) = inr pl
      ∧ plan_start_urls pl = []
      ∧ max_requests_per_crawl pl <= 0.
Proof.
  assert (- 2 ^ 53 < get_max_articles (Some {[ "maxArticles" := -30 ]}) <= 0)
    as H by (split; [reflexivity | discriminate]).
  split; [exact H |].
  exact (nonpositive_max_articles_accepted (Some {[ "maxArticles" := -30 ]}) H).
Defined.

(** C7 (as stated, refuted): with [maxArticles = 0] planning raises
    nothing and hands the crawler an empty seed list and a budget of 0. *)
Lemma zero_max_articles_not_rejected :
  main_plan (Some {[ "maxArticles" := 0 ]}) = inr (MkPlan 0 [] 0)
  ∧ ¬ rejects_nonpositive (Some {[ "maxArticles" := 0 ]}).
Proof.
  assert (main_plan (Some {[ "maxArticles" := 0 ]}) = inr (MkPlan 0 [] 0))
    as Hrun by reflexivity.
  split; [exact Hrun |].
  intros Hrej. destruct Hrej as [e He]; [discriminate |].
  rewrite Hrun in He. discriminate He.
Qed.




(** ** The article handler *)

(** C1 (amended): the handler charges ["article_summary"] exactly once
    when the extracted content is neither [None] nor empty and the
    summarizer call returns, and never otherwise (null or empty content,
    or a summarizer call that raises). *)
Theorem charge_iff_summarized (client : Client) (context : Context) (w : World) :
  charges (ArticleHandler.request_handler client context w).2
  = charges w
    ++ (if truthy (ArticleHandler.content_of context)
           && returned (responses_create client ArticleHandler.model
                          (ArticleHandler.prompt_of (ArticleHandler.content_of context)))
        then ["article_summary"] else []).
Proof.
  rewrite article_handler_run; cbv zeta; simpl.
  destruct (truthy (ArticleHandler.content_of context)); simpl.
  - destruct (responses_create client _ _); simpl; [by rewrite app_nil_r | done].
  - by rewrite app_nil_r.
Qed.

(** C1 (as stated, refuted): content that is present but empty is not
    charged, and content followed by a failing summarizer call is not
    charged either. *)
Lemma charge_not_on_presence_alone :
  ¬ bills_on_content_presence answering_client blank_page initial
  ∧ ¬ bills_on_content_presence failing_client story_page initial.
Proof.
  split; intros H; vm_compute in H; discriminate H.
Qed.

(** C2 (amended): when the content is non-empty and the summarizer call
    raises, the handler makes that one call, pushes no record, charges
    nothing and lets the same exception leave the handler (it neither
    retries nor catches). *)
Theorem summarizer_failure_propagates
    (client : Client) (context : Context) (w : World) (c : string) (e : exception) :
  ArticleHandler.content_of context = Some c ->
  c ≠ "" ->
  responses_create client ArticleHandler.model (ArticleHandler.prompt_of (Some c))
  = inl e ->
  (ArticleHandler.request_handler client context w).1 = Raise e
  ∧ llm_calls (ArticleHandler.request_handler client context w).2
    = llm_calls w ++ [(ArticleHandler.model, ArticleHandler.prompt_of (Some c))]
  ∧ dataset (ArticleHandler.request_handler client context w).2 = dataset w
  ∧ charges (ArticleHandler.request_handler client context w).2 = charges w.
Proof.
  intros Hc Hne Hfail.
  rewrite article_handler_run; cbv zeta. rewrite Hc.
  rewrite (proj2 (truthy_Some c) Hne). simpl. by rewrite Hfail.
Qed.

Lemma summarizer_failure_propagates_witness :
  (ArticleHandler.content_of story_page = Some "Body text"
   ∧ "Body text" ≠ ""
   ∧ responses_create failing_client ArticleHandler.model
       (ArticleHandler.prompt_of (Some "Body text"))
     = inl (ClientError "APIConnectionError"))
  ∧ (ArticleHandler.request_handler failing_client story_page initial).1
    = Raise (ClientError "APIConnectionError")
  ∧ dataset (ArticleHandler.request_handler failing_client story_page initial).2 = []
  ∧ charges (ArticleHandler.request_handler failing_client story_page initial).2 = [].
Proof.
  assert (ArticleHandler.content_of story_page = Some "Body text") as Hc
    by reflexivity.
  assert ("Body text" ≠ "") as Hne by discriminate.
  assert (responses_create failing_client ArticleHandler.model
            (ArticleHandler.prompt_of (Some "Body text"))
          = inl (ClientError "APIConnectionError")) as Hfail by reflexivity.
  split; [split; [exact Hc | split; [exact Hne | exact Hfail]] |].
  destruct (summarizer_failure_propagates failing_client story_page initial
              "Body text" (ClientError "APIConnectionError") Hc Hne Hfail)
    as (Hraise & _ & Hdata & Hcharges).
  split; [exact Hraise | split; [exact Hdata | exact Hcharges]].
Defined.

(** C2 (as stated, refuted): on a page with content whose summarizer
    call raises, no record is pushed and nothing is charged. *)
Lemma summarizer_failure_emits_nothing :
  ¬ survives_summarizer_failure failing_client story_page initial.
Proof.
  intros H.
  destruct (H "Body text" (ClientError "APIConnectionError") eq_refl eq_refl)
    as [Hdata _].
  vm_compute in Hdata. discriminate Hdata.
Qed.

(** C4 (amended): on every article page where the summarizer call, if
    one is made, returns, the handler returns normally after pushing
    exactly one record [{title, content, url, summary}]; with null or
    empty content no summarizer call is made and the summary is null;
    with non-empty content the summarizer is called once, with the model
    name and the prompt that wraps the literal content, and the summary
    is the text of its response. *)
Theorem one_record_per_article (client : Client) (context : Context) (w : World) :
  (truthy (ArticleHandler.content_of context) = true ->
   ∀ e, responses_create client ArticleHandler.model
          (ArticleHandler.prompt_of (ArticleHandler.content_of context)) ≠ inl e) ->
  ∃ s,
    (ArticleHandler.request_handler client context w).1 = Return ()
    ∧ dataset (ArticleHandler.request_handler client context w).2
      = dataset w
        ++ [MkData (ArticleHandler.title_of context)
              (ArticleHandler.content_of context) (request_url context) s]
    ∧ match ArticleHandler.content_of context with
      | Some c =>
          if String.eqb c "" then
            llm_calls (ArticleHandler.request_handler client context w).2
            = llm_calls w
            ∧ s = None
          else
            llm_calls (ArticleHandler.request_handler client context w).2
            = llm_calls w
              ++ [(ArticleHandler.model,
                   ArticleHandler.prompt_prefix +:+ c +:+ ArticleHandler.prompt_suffix)]
            ∧ ∃ r, responses_create client ArticleHandler.model
                     (ArticleHandler.prompt_prefix +:+ c
                      +:+ ArticleHandler.prompt_suffix) = inr r
                   ∧ s = Some (output_text r)
      | None =>
          llm_calls (ArticleHandler.request_handler client context w).2
          = llm_calls w
          ∧ s = None
      end.
Proof.
  intros Hreturns. rewrite article_handler_run; cbv zeta.
  destruct (ArticleHandler.content_of context) as [c |] eqn:Hc; simpl in *.
  - destruct (String.eqb c ""); simpl in *.
    + by exists None.
    + specialize (Hreturns eq_refl).
      unfold ArticleHandler.prompt_of in *; simpl in *.
      destruct (responses_create client _ _) as [e | r] eqn:Hr.
      * by destruct (Hreturns e).
      * exists (Some (output_text r)). simpl.
        repeat split. by exists r.
  - by exists None.
Qed.

Lemma one_record_per_article_witness :
  (truthy (ArticleHandler.content_of story_page) = true ->
   ∀ e, responses_create answering_client ArticleHandler.model
          (ArticleHandler.prompt_of (ArticleHandler.content_of story_page)) ≠ inl e)
  ∧ ∃ s,
      dataset (ArticleHandler.request_handler answering_client story_page initial).2
      = [MkData (Some "Headline") (Some "Body text")
           "https://www.wired.com/story/a" s].
Proof.
  assert (truthy (ArticleHandler.content_of story_page) = true ->
          ∀ e, responses_create answering_client ArticleHandler.model
                 (ArticleHandler.prompt_of (ArticleHandler.content_of story_page))
               ≠ inl e) as H by (intros _ e; discriminate).
  split; [exact H |].
  destruct (one_record_per_article answering_client story_page initial H)
    as (s & _ & Hdata & _).
  exists s. exact Hdata.
Defined.

(** C4 (as stated, refuted): a page with content whose summarizer call
    raises gets no record at all, and a page whose content is the empty
    string gets its record without any summarizer call. *)
Lemma record_not_unconditional :
  ¬ always_emits_one_record failing_client story_page initial
  ∧ ¬ always_emits_one_record answering_client blank_page initial.
Proof.
  split.
  - intros [(s & Hdata & _) _]. vm_compute in Hdata. discriminate Hdata.
  - intros [_ Hcalls]. vm_compute in Hcalls. discriminate Hcalls.
Qed.

(** C9: when the content element is found but its text is the empty
    string, the handler makes no summarizer call, pushes a record whose
    content is the empty string and whose summary is null, and charges
    nothing. *)
Theorem empty_content_not_summarized
    (client : Client) (context : Context) (w : World) (content_el : Tag) :
  soup_select_one context ArticleHandler.content_selector = Some content_el ->
  get_text_strip content_el = "" ->
  ArticleHandler.request_handler client context w
  = (Return (),
     MkWorld
       (logs w ++ ["Processing article " +:+ request_url context +:+ " ..."])
       (enqueue_calls w)
       (llm_calls w)
       (dataset w
        ++ [MkData (ArticleHandler.title_of context) (Some "")
              (request_url context) None])
       (charges w)).
Proof.
  intros Hel Htext. rewrite article_handler_run; cbv zeta.
  unfold ArticleHandler.content_of. by rewrite Hel, Htext.
Qed.

Lemma empty_content_not_summarized_witness :
  (soup_select_one blank_page ArticleHandler.content_selector = Some (MkTag "")
   ∧ get_text_strip (MkTag "") = "")
  ∧ llm_calls (ArticleHandler.request_handler failing_client blank_page initial).2 = []
  ∧ charges (ArticleHandler.request_handler failing_client blank_page initial).2 = [].
Proof.
  assert (soup_select_one blank_page ArticleHandler.content_selector
          = Some (MkTag "")) as Hel by reflexivity.
  assert (get_text_strip (MkTag "") = "") as Htext by reflexivity.
  split; [split; [exact Hel | exact Htext] |].
  rewrite (empty_content_not_summarized failing_client blank_page initial
             (MkTag "") Hel Htext).
  split; reflexivity.
Defined.

(** C10: every record the article handler pushes has a summary only if
    its content is present and non-empty. *)
Theorem pushed_summary_has_content (client : Client) (context : Context) (w : World) :
  Forall summary_has_content
    (pushed w (ArticleHandler.request_handler client context w).2).
Proof.
  rewrite article_handler_run; cbv zeta.
  destruct (truthy (ArticleHandler.content_of context)) eqn:Htruthy.
  - destruct (responses_create client _ _) as [e | r]; simpl.
    + rewrite (pushed_app w []) by (simpl; by rewrite app_nil_r). constructor.
    + erewrite pushed_app by reflexivity.
      constructor; [| constructor]. intros _. simpl.
      destruct (ArticleHandler.content_of context) as [c |]; [| done].
      exists c. split; [done |]. by apply truthy_Some.
  - erewrite pushed_app by reflexivity.
    constructor; [| constructor]. intros Hs. by destruct Hs.
Qed.

(** ** The listing handler *)

(** C5: on every listing page the default handler returns normally,
    whatever links the page has; besides its log line, all it does is one
    link-enqueue request for the glob [https://www.wired.com/story/**]
    (the [/story/] paths on the origin of the base URL) with label
    ["ARTICLE"]; it pushes no record, charges nothing and calls no
    summarizer. *)
Theorem listing_handler_only_enqueues (context : Context) (w : World) :
  DefaultHandler.request_handler context w
  = (Return (),
     MkWorld
       (logs w ++ ["Scraping " +:+ request_url context +:+ "..."])
       (enqueue_calls w
        ++ [MkEnqueueLinks ["https://www.wired.com/story/**"] "ARTICLE"])
       (llm_calls w) (dataset w) (charges w))
  ∧ DefaultHandler.article_glob = "https://www.wired.com" +:+ "/story/**"
  ∧ base_url = "https://www.wired.com" +:+ "/tag/programming".
Proof. split; [apply default_handler_run | split; reflexivity]. Qed.

(** ** More on the crawl plan *)

Section plan_facts.

Lemma rne_ge_floor n d : n / d <= Py.rne n d.
Proof. unfold Py.rne. repeat case_match; lia. Qed.

Lemma cdiv_bounds t p : 0 < p -> p * (cdiv t p - 1) < t <= p * cdiv t p.
Proof.
  intros Hp. unfold cdiv.
  pose proof (Z.div_mod (- t) p ltac:(lia)) as Hdm.
  pose proof (Z.mod_pos_bound (- t) p Hp) as Hr. lia.
Qed.

Lemma cdiv_mono t1 t2 p : 0 < p -> t1 <= t2 -> cdiv t1 p <= cdiv t2 p.
Proof.
  intros Hp Hle. unfold cdiv.
  pose proof (Z.div_le_mono (- t2) (- t1) p Hp ltac:(lia)). lia.
Qed.

Lemma start_urls_prefix base p1 p2 :
  p1 <= p2 -> start_urls base p1 `prefix_of` start_urls base p2.
Proof.
  intros Hle. rewrite !start_urls_fmap.
  destruct (Z.le_gt_cases p1 0) as [Hneg | Hpos].
  { rewrite (seqZ_nil 1 p1) by done. apply prefix_nil. }
  replace p2 with (p1 + (p2 - p1)) by lia.
  rewrite seqZ_app, fmap_app by lia. by eexists.
Qed.

(** A positive quotient keeps a positive significand, at any size. *)
Lemma truediv_significand_pos n d :
  0 < n -> 0 < d <= 2 ^ 1074 ->
  let e := Z.max (Py.quot_log2 n d - 52) (- 1074) in
  1 <= (if 0 <=? e then Py.rne n (d * 2 ^ e) else Py.rne (n * 2 ^ (- e)) d).
Proof.
  intros Hn [Hd Hdmax] e.
  pose proof (quot_log2_lower n d Hn Hd) as [Hge Hlt].
  pose proof (quot_log2_below_next n d Hn Hd) as [_ Hnext].
  set (fl := Py.quot_log2 n d) in *.
  assert (- 1074 <= fl) as Hfl.
  { destruct (Z.le_gt_cases (- 1074) fl) as [? | Hsmall]; [done |].
    specialize (Hnext ltac:(lia)).
    assert (2 ^ 1074 <= 2 ^ (- (fl + 1))) by (apply Z.pow_le_mono_r; lia).
    nia. }
  destruct (Z.leb_spec 0 e) as [He | He].
  - assert (0 < 2 ^ e) by (apply Z.pow_pos_nonneg; lia).
    assert (2 ^ e <= 2 ^ fl) by (apply Z.pow_le_mono_r; lia).
    specialize (Hge ltac:(lia)).
    etrans; [| apply rne_ge_floor].
    apply Z.div_le_lower_bound; nia.
  - etrans; [| apply rne_ge_floor].
    apply Z.div_le_lower_bound; [lia |]. rewrite Z.mul_1_r.
    destruct (Z.le_gt_cases 0 fl) as [Hpos | Hneg].
    + specialize (Hge Hpos).
      assert (0 < 2 ^ fl) by (apply Z.pow_pos_nonneg; lia).
      assert (0 < 2 ^ (- e)) by (apply Z.pow_pos_nonneg; lia).
      nia.
    + specialize (Hlt Hneg).
      assert (2 ^ (- fl) <= 2 ^ (- e)) by (apply Z.pow_le_mono_r; lia).
      nia.
Qed.

Lemma total_pages_pos t p pages :
  0 < t -> 0 < p <= 2 ^ 1074 -> total_pages t p = inr pages -> 1 <= pages.
Proof.
  intros Ht Hp. unfold total_pages, Py.truediv.
  destruct (Z.eqb_spec p 0) as [? | _]; [lia |].
  destruct (Z.eqb_spec t 0) as [? | _]; [lia |].
  rewrite (Z.abs_eq t), (Z.abs_eq p) by lia.
  pose proof (truediv_significand_pos t p Ht Hp) as Hm. simpl in Hm.
  set (e := Z.max _ _) in *.
  set (m := if 0 <=? e then _ else _) in *.
  destruct (_ || _); [done |]. intros [= <-].
  rewrite (Z.sgn_pos t), (Z.sgn_pos p) by lia.
  replace (1 * 1 * m) with m by lia.
  unfold Py.ceil; simpl. destruct (Z.leb_spec 0 e) as [He | He].
  - assert (0 < 2 ^ e) by (apply Z.pow_pos_nonneg; lia). nia.
  - assert (- m / 2 ^ (- e) < 0); [| lia].
    apply Z.div_lt_upper_bound; [apply Z.pow_pos_nonneg |]; lia.
Qed.

End plan_facts.

(** X1: an actor input that is [None] or has no ["maxArticles"] key
    falls back to 24 articles: one listing page, the bare base URL as the
    only seed, and a budget of 25 requests. *)
Theorem default_input_plan (actor_input : option (gmap string Z)) :
  default ∅ actor_input !! "maxArticles" = None ->
  main_plan actor_input = inr (MkPlan 1 [base_url] 25).
Proof.
  intros Hmissing. unfold main_plan, get_max_articles.
  rewrite Hmissing. reflexivity.
Qed.

Lemma default_input_plan_witness :
  default ∅ (Some ({[ "maxItems" := 7 ]} : gmap string Z)) !! "maxArticles" = None
  ∧ main_plan (Some {[ "maxItems" := 7 ]}) = inr (MkPlan 1 [base_url] 25).
Proof.
  assert (default ∅ (Some ({[ "maxItems" := 7 ]} : gmap string Z)) !! "maxArticles"
          = None) as H by reflexivity.
  split; [exact H |].
  exact (default_input_plan (Some {[ "maxItems" := 7 ]}) H).
Defined.

(** X2: for [0 < maxArticles < 2 ^ 53] the planned listing pages hold
    the requested articles at 24 per page, and one page fewer would not:
    [24 * (pages - 1) < maxArticles <= 24 * pages]. *)
Theorem pages_cover_target (actor_input : option (gmap string Z)) :
  0 < get_max_articles actor_input < 2 ^ 53 ->
  ∃ pl, main_plan actor_input = inr pl
    ∧ ARTICLES_PER_PAGE * (plan_total_pages pl - 1) < get_max_articles actor_input
    ∧ get_max_articles actor_input <= ARTICLES_PER_PAGE * plan_total_pages pl.
Proof.
  intros Ht. unfold main_plan.
  set (t := get_max_articles actor_input) in *.
  assert (0 < ARTICLES_PER_PAGE < 2 ^ 1075) as Hp by (split; reflexivity).
  pose proof (total_pages_exact t ARTICLES_PER_PAGE ltac:(lia) Hp) as Hpages.
  eexists. split; [by apply plan_pages |]. cbn [plan_total_pages].
  apply cdiv_bounds. reflexivity.
Qed.

Lemma pages_cover_target_witness :
  0 < get_max_articles (Some {[ "maxArticles" := 100 ]}) < 2 ^ 53
  ∧ ∃ pl, main_plan (Some {[ "maxArticles" := 100 ]}) = inr pl
      ∧ ARTICLES_PER_PAGE * (plan_total_pages pl - 1) < 100
      ∧ 100 <= ARTICLES_PER_PAGE * plan_total_pages pl.
Proof.
  assert (0 < get_max_articles (Some {[ "maxArticles" := 100 ]}) < 2 ^ 53) as H
    by (split; reflexivity).
  split; [exact H |].
  exact (pages_cover_target (Some {[ "maxArticles" := 100 ]}) H).
Defined.

(** X3: between [- 2 ^ 53] and [2 ^ 53], asking for more articles never
    plans fewer pages, and the seed URLs of the smaller plan are the
    first seed URLs of the larger one. *)
Theorem plan_grows_by_appending (base : string) (t1 t2 : Z) :
  - 2 ^ 53 < t1 -> t1 <= t2 -> t2 < 2 ^ 53 ->
  ∃ pl1 pl2,
    plan base t1 ARTICLES_PER_PAGE = inr pl1
    ∧ plan base t2 ARTICLES_PER_PAGE = inr pl2
    ∧ plan_total_pages pl1 <= plan_total_pages pl2
    ∧ plan_start_urls pl1 `prefix_of` plan_start_urls pl2.
Proof.
  intros Hlow Hle Hhigh.
  assert (0 < ARTICLES_PER_PAGE < 2 ^ 1075) as Hp by (split; reflexivity).
  pose proof (total_pages_exact t1 ARTICLES_PER_PAGE ltac:(lia) Hp) as H1.
  pose proof (total_pages_exact t2 ARTICLES_PER_PAGE ltac:(lia) Hp) as H2.
  pose proof (cdiv_mono t1 t2 ARTICLES_PER_PAGE eq_refl Hle) as Hmono.
  do 2 eexists.
  split; [by apply plan_pages |]. split; [by apply plan_pages |].
  cbn [plan_total_pages plan_start_urls].
  split; [done |]. by apply start_urls_prefix.
Qed.

Lemma plan_grows_by_appending_witness :
  (- 2 ^ 53 < 30 ∧ 30 <= 70 ∧ 70 < 2 ^ 53)
  ∧ ∃ pl1 pl2,
      plan base_url 30 ARTICLES_PER_PAGE = inr pl1
      ∧ plan base_url 70 ARTICLES_PER_PAGE = inr pl2
      ∧ plan_total_pages pl1 <= plan_total_pages pl2
      ∧ plan_start_urls pl1 `prefix_of` plan_start_urls pl2.
Proof.
  assert (- 2 ^ 53 < 30) as H1 by reflexivity.
  assert (30 <= 70) as H2 by discriminate.
  assert (70 < 2 ^ 53) as H3 by reflexivity.
  split; [split; [exact H1 | split; [exact H2 | exact H3]] |].
  exact (plan_grows_by_appending base_url 30 70 H1 H2 H3).
Defined.

(** X5: a positive [maxArticles] of any size, whenever planning
    returns, plans at least one page, seeds the bare base URL first, and
    gets a request budget above [maxArticles]. *)
Theorem positive_target_seeds_base (base : string) (t : Z) (pl : Plan) :
  0 < t ->
  plan base t ARTICLES_PER_PAGE = inr pl ->
  1 <= plan_total_pages pl
  ∧ plan_start_urls pl !! 0%nat = Some base
  ∧ t < max_requests_per_crawl pl.
Proof.
  intros Ht (Htotal & Hurls & Hbudget)%plan_inv.
  assert (0 < ARTICLES_PER_PAGE <= 2 ^ 1074) as Hp
    by (split; [reflexivity | discriminate]).
  pose proof (total_pages_pos t ARTICLES_PER_PAGE _ Ht Hp Htotal) as Hpos.
  split; [done |]. split; [| lia].
  rewrite Hurls. change 0%nat with (Z.to_nat (1 - 1)).
  by rewrite start_urls_lookup by lia.
Qed.

Lemma positive_target_seeds_base_witness :
  (0 < 50
   ∧ plan base_url 50 ARTICLES_PER_PAGE
     = inr (MkPlan 3 (start_urls base_url 3) 53))
  ∧ start_urls base_url 3 !! 0%nat = Some base_url.
Proof.
  assert (0 < 50) as Ht by reflexivity.
  assert (plan base_url 50 ARTICLES_PER_PAGE
          = inr (MkPlan 3 (start_urls base_url 3) 53)) as Hpl by reflexivity.
  split; [split; [exact Ht | exact Hpl] |].
  exact (proj1 (proj2 (positive_target_seeds_base base_url 50 _ Ht Hpl))).
Defined.

(** X6: the seed list holds the bare base URL exactly when there is at
    least one page, and the URL with query [?page=i] exactly for
    [2 <= i <= pages]: page 1 never appears with a query, and no page
    index outside the plan is seeded. *)
Theorem seed_membership (base : string) (pages : Z) :
  (base ∈ start_urls base pages ↔ 1 <= pages)
  ∧ ∀ i, base +:+ "/?page=" +:+ Py.str i ∈ start_urls base pages
         ↔ 2 <= i <= pages.
Proof.
  rewrite start_urls_fmap. split.
  - rewrite list_elem_of_fmap. split.
    + intros (j & _ & Hj%elem_of_seqZ). lia.
    + intros Hp. exists 1. split; [done |]. apply elem_of_seqZ. lia.
  - intros i. rewrite list_elem_of_fmap. split.
    + intros (j & Heq & Hj%elem_of_seqZ). unfold page_url in Heq.
      destruct (Z.eqb_spec j 1) as [Hj1 | Hj1].
      * assert (base +:+ "/?page=" +:+ Py.str i = base +:+ "") as H
          by (by rewrite app_empty_r).
        apply (inj _) in H. discriminate H.
      * apply (inj _) in Heq. cbn in Heq.
        apply (inj (String.app "/?page=")), (inj pretty) in Heq. lia.
    + intros Hi. exists i. split; [| apply elem_of_seqZ; lia].
      unfold page_url. destruct (Z.eqb_spec i 1); [lia | done].
Qed.

(** X7: no seed URL of the program starts with the literal part of the
    article glob that the listing handler enqueues by, so a listing page
    is never itself taken for an article link. *)
Theorem seeds_not_article_links (pages : Z) (u : string) :
  u ∈ start_urls base_url pages ->
  String.prefix article_prefix u = false
  ∧ DefaultHandler.article_glob = article_prefix +:+ "**".
Proof.
  rewrite start_urls_fmap, list_elem_of_fmap.
  intros (j & -> & _). split; [| reflexivity].
  unfold page_url. by destruct (j =? 1).
Qed.

Lemma seeds_not_article_links_witness :
  base_url +:+ "/?page=2" ∈ start_urls base_url 2
  ∧ String.prefix article_prefix (base_url +:+ "/?page=2") = false.
Proof.
  assert (base_url +:+ "/?page=2" ∈ start_urls base_url 2) as H
    by (rewrite start_urls_fmap; apply list_elem_of_fmap; exists 2;
        split; [reflexivity | apply elem_of_seqZ; lia]).
  split; [exact H |].
  exact (proj1 (seeds_not_article_links 2 _ H)).
Defined.

(** ** More on the handlers *)

Section handler_facts.

Lemma string_length_app (s1 s2 : string) :
  String.length (s1 +:+ s2) = (String.length s1 + String.length s2)%nat.
Proof.
  induction s1 as [| c s1 IH]; [done |].
  change (S (String.length (s1 +:+ s2))
          = S (String.length s1 + String.length s2)).
  by rewrite IH.
Qed.

(** Cancelling a common ending. *)
Lemma string_app_inj_r (t s1 s2 : string) : s1 +:+ t = s2 +:+ t -> s1 = s2.
Proof.
  revert s2. induction s1 as [| c1 s1 IH]; intros [| c2 s2] H.
  - done.
  - apply (f_equal String.length) in H.
    change (String.length t = S (String.length (s2 +:+ t))) in H.
    rewrite string_length_app in H. lia.
  - apply (f_equal String.length) in H.
    change (S (String.length (s1 +:+ t)) = String.length t) in H.
    rewrite string_length_app in H. lia.
  - change (String c1 (s1 +:+ t) = String c2 (s2 +:+ t)) in H.
    injection H as -> H. f_equal. by apply IH.
Qed.

(** One invocation keeps the billing of a world consistent. *)
Lemma billing_consistent_step w w' :
  billing_consistent w -> handled w w' -> billing_consistent w'.
Proof.
  intros [Hcharges Hcalls] [context | client context].
  - by rewrite default_handler_run.
  - rewrite article_handler_run; cbv zeta. unfold billing_consistent.
    destruct (truthy (ArticleHandler.content_of context)).
    + destruct (responses_create client _ _) as [e | r]; simpl.
      * split; [done |]. rewrite length_app. lia.
      * rewrite filter_app, !length_app.
        rewrite filter_cons_True, filter_nil by done. simpl.
        rewrite replicate_add. simpl. split; [by rewrite Hcharges at 1 | lia].
    + simpl. rewrite filter_app, filter_cons_False, filter_nil by done.
      by rewrite app_nil_r.
Qed.

End handler_facts.

(** X9: one invocation of the article handler only appends: what was
    logged, requested, pushed and charged before stays in place; it
    writes one log line, makes at most one summarizer call, pushes at
    most one record, charges at most once, and never asks for links to
    be enqueued. *)
Theorem article_handler_appends_at_most_once
    (client : Client) (context : Context) (w : World) :
  let w' := (ArticleHandler.request_handler client context w).2 in
  enqueue_calls w' = enqueue_calls w
  ∧ length (logs w') = S (length (logs w))
  ∧ (llm_calls w `prefix_of` llm_calls w'
     ∧ length (llm_calls w') <= S (length (llm_calls w)))%nat
  ∧ (dataset w `prefix_of` dataset w'
     ∧ length (dataset w') <= S (length (dataset w)))%nat
  ∧ (charges w `prefix_of` charges w'
     ∧ length (charges w') <= S (length (charges w)))%nat.
Proof.
  rewrite article_handler_run; cbv zeta.
  destruct (truthy (ArticleHandler.content_of context)).
  - destruct (responses_create client _ _) as [e | r]; simpl;
      rewrite ?length_app; simpl;
      repeat split; try done; try lia; by apply prefix_app_r.
  - simpl. rewrite ?length_app; simpl.
    repeat split; try done; try lia; by apply prefix_app_r.
Qed.

(** X10: the article handler raises nothing of its own: if an
    invocation ends in an exception, the content was non-empty, the
    exception is the one the summarizer call raised on that page's
    prompt, and the invocation pushed no record and charged nothing. *)
Theorem article_handler_raises_only_from_client
    (client : Client) (context : Context) (w : World) (e : exception) :
  (ArticleHandler.request_handler client context w).1 = Raise e ->
  ∃ c, ArticleHandler.content_of context = Some c
    ∧ c ≠ ""
    ∧ responses_create client ArticleHandler.model
        (ArticleHandler.prompt_of (Some c)) = inl e
    ∧ dataset (ArticleHandler.request_handler client context w).2 = dataset w
    ∧ charges (ArticleHandler.request_handler client context w).2 = charges w.
Proof.
  rewrite article_handler_run; cbv zeta.
  destruct (ArticleHandler.content_of context) as [c |] eqn:Hc; [| done].
  destruct (truthy (Some c)) eqn:Htruthy; [| done].
  simpl fst; simpl snd.
  destruct (responses_create client _ _) as [e' | r] eqn:Hr; [| done].
  simpl. intros [= ->]. exists c.
  split; [done |]. split; [by apply truthy_Some |]. done.
Qed.

Lemma article_handler_raises_only_from_client_witness :
  (ArticleHandler.request_handler failing_client story_page initial).1
  = Raise (ClientError "APIConnectionError")
  ∧ ∃ c, ArticleHandler.content_of story_page = Some c
      ∧ c ≠ ""
      ∧ responses_create failing_client ArticleHandler.model
          (ArticleHandler.prompt_of (Some c))
        = inl (ClientError "APIConnectionError")
      ∧ dataset (ArticleHandler.request_handler failing_client story_page initial).2
        = dataset initial
      ∧ charges (ArticleHandler.request_handler failing_client story_page initial).2
        = charges initial.
Proof.
  assert ((ArticleHandler.request_handler failing_client story_page initial).1
          = Raise (ClientError "APIConnectionError")) as H by reflexivity.
  split; [exact H |].
  exact (article_handler_raises_only_from_client failing_client story_page
           initial _ H).
Defined.

(** X11: over any sequence of complete handler invocations, on any
    pages and whatever the client answers, a world that has one
    ["article_summary"] charge per pushed record with a summary (and no
    more charges than summarizer calls) keeps having it; a failing or
    skipped summary never leaves a charge behind. *)
Theorem billing_stays_consistent (w w' : World) :
  billing_consistent w -> rtc handled w w' -> billing_consistent w'.
Proof.
  intros Hw Hsteps. induction Hsteps as [| w1 w2 w3 Hstep _ IH]; [done |].
  apply IH. by apply (billing_consistent_step w1).
Qed.

Lemma billing_stays_consistent_witness :
  (billing_consistent initial
   ∧ rtc handled initial
       (ArticleHandler.request_handler answering_client story_page
          (ArticleHandler.request_handler failing_client story_page
             (DefaultHandler.request_handler bare_page initial).2).2).2)
  ∧ billing_consistent
      (ArticleHandler.request_handler answering_client story_page
         (ArticleHandler.request_handler failing_client story_page
            (DefaultHandler.request_handler bare_page initial).2).2).2.
Proof.
  assert (billing_consistent initial) as H0 by (split; [reflexivity | simpl; lia]).
  assert (rtc handled initial
            (ArticleHandler.request_handler answering_client story_page
               (ArticleHandler.request_handler failing_client story_page
                  (DefaultHandler.request_handler bare_page initial).2).2).2)
    as Hsteps.
  { eapply rtc_l; [apply (handled_listing _ bare_page) |].
    eapply rtc_l; [apply (handled_article _ failing_client story_page) |].
    eapply rtc_l; [apply (handled_article _ answering_client story_page) |].
    apply rtc_refl. }
  split; [split; [exact H0 | exact Hsteps] |].
  exact (billing_stays_consistent _ _ H0 Hsteps).
Defined.

(** X12: the prompt sent to the summarizer determines the content it
    was built from: two contents with the same prompt are equal. *)
Theorem prompt_determines_content (c1 c2 : string) :
  ArticleHandler.prompt_of (Some c1) = ArticleHandler.prompt_of (Some c2) ->
  c1 = c2.
Proof.
  unfold ArticleHandler.prompt_of; simpl.
  intros H%(inj _). by apply string_app_inj_r in H.
Qed.

Lemma prompt_determines_content_witness :
  ArticleHandler.prompt_of (Some "Body text")
  = ArticleHandler.prompt_of (Some ("Body" +:+ " text"))
  ∧ "Body text" = "Body" +:+ " text".
Proof.
  assert (ArticleHandler.prompt_of (Some "Body text")
          = ArticleHandler.prompt_of (Some ("Body" +:+ " text"))) as H
    by reflexivity.
  split; [exact H |].
  exact (prompt_determines_content _ _ H).
Defined.

Lemma invoke_requests (w : World) (i : invocation) :
  enqueue_calls (invoke w i) = enqueue_calls w ++ enqueued_by i
  ∧ llm_calls (invoke w i) = llm_calls w ++ summarizer_calls_by i.
Proof.
  destruct i as [context | client context]; unfold invoke.
  - rewrite default_handler_run. simpl. by rewrite app_nil_r.
  - rewrite article_handler_run; cbv zeta.
    unfold summarizer_calls_by, ArticleHandler.prompt_of.
    destruct (ArticleHandler.content_of context) as [c |]; simpl.
    + destruct (String.eqb c ""); simpl; [by rewrite !app_nil_r |].
      destruct (responses_create client _ _); simpl; by rewrite app_nil_r.
    + by rewrite !app_nil_r.
Qed.

(** X13: over any sequence of complete handler invocations, the
    link-enqueue requests made are exactly one per listing invocation,
    each for the article glob with label ["ARTICLE"], and the summarizer
    calls made are exactly one per article invocation whose page has
    non-empty content, in order, each naming [gpt-4.1-mini] and sending
    the prompt around that page's content, whether the call returns or
    raises; an article page with missing or empty content adds no
    call. *)
Theorem requests_follow_invocations (invs : list invocation) (w : World) :
  enqueue_calls (invoke_all invs w)
  = enqueue_calls w ++ concat (enqueued_by <$> invs)
  ∧ llm_calls (invoke_all invs w)
    = llm_calls w ++ concat (summarizer_calls_by <$> invs).
Proof.
  revert w. induction invs as [| i invs IH]; intros w.
  - simpl. by rewrite !app_nil_r.
  - destruct (invoke_requests w i) as [Henq Hllm].
    destruct (IH (invoke w i)) as [IHenq IHllm].
    unfold invoke_all in *. simpl.
    rewrite IHenq, IHllm, Henq, Hllm. by rewrite <- !app_assoc.
Qed.
